(** * Open-Assistant, [model_training/custom_datasets/formatting.py]

    A shallow embedding of the dataset-entry record, its pydantic validators and
    the question/answer formatter, with the properties the specification states
    about them.

    Python values are modelled as follows: [str] as [string], [int] as [Z],
    [float] as the kernel's binary64 [float], [None]-able fields as [option],
    exceptions as an error type, and the process-wide random source used by
    [random.shuffle] as an explicit tape of draws threaded through a
    state-and-error monad. *)

From Stdlib Require Import List Bool Arith ZArith Lia.
From Stdlib Require Import Ascii String DecimalString.
From Stdlib Require Import PrimFloat SpecFloat FloatOps Uint63.
From Stdlib Require Import Permutation.
Import ListNotations.

Local Open Scope list_scope.
Local Open Scope string_scope.

(** ** Strings *)

(** The newline character, Python's ["\n"]. *)
Definition newline_char : ascii := Ascii.ascii_of_nat 10.
Definition nl : string := String newline_char EmptyString.

(** [s.replace("\n", "")]: every newline character is dropped. *)
Fixpoint remove_newlines (s : string) : string :=
  match s with
  | EmptyString => EmptyString
  | String c s' =>
      if Ascii.eqb c newline_char then remove_newlines s'
      else String c (remove_newlines s')
  end.

(** Truthiness of a Python [str]: the empty string is falsy. *)
Definition truthy (s : string) : bool :=
  match s with
  | EmptyString => false
  | String _ _ => true
  end.

(** [sep.join(l)]. *)
Definition join (sep : string) (l : list string) : string := String.concat sep l.

(** [str(v)] for an [int]. *)
Definition str_int (z : Z) : string := NilZero.string_of_int (Z.to_int z).

(** ** The tag vocabulary *)

Inductive token_key : Type := Question | Answer | System | StartPrefix | EndPrefix.

Definition QA_SPECIAL_TOKENS (k : token_key) : string :=
  match k with
  | Question => "<|prompter|>"
  | Answer => "<|assistant|>"
  | System => "<|system|>"
  | StartPrefix => "<|prefix_begin|>"
  | EndPrefix => "<|prefix_end|>"
  end.

Definition format_system_prefix (prefix eos_token : string) : string :=
  QA_SPECIAL_TOKENS System ++ prefix ++ eos_token.

(** ** Exceptions and results *)

Inductive exn : Type :=
| ValueError (msg : string)
| TypeError (msg : string)
| IndexError (msg : string)
| NotImplementedError (msg : string).

Inductive res (A : Type) : Type :=
| Ok (a : A)
| Err (e : exn).

Arguments Ok {A} a.
Arguments Err {A} e.

(** The specification's names for the failures of rendering. *)
Definition is_StructuralError (e : exn) : bool :=
  match e with ValueError _ => true | _ => false end.

Definition is_NotImplemented (e : exn) : bool :=
  match e with NotImplementedError _ => true | _ => false end.

(** ** The random source

    [random.shuffle] draws from the process-wide generator.  The generator is a
    tape of raw draws; [randbelow n] consumes one draw and reduces it below [n]
    (an exhausted tape answers [0]). *)

Definition Rng : Type := list nat.

(** Computations that may raise and that consume the random tape.  A raised
    exception does not give back the draws already consumed. *)
Definition M (A : Type) : Type := Rng -> res A * Rng.

Definition ret {A} (a : A) : M A := fun g => (Ok a, g).

Definition raise {A} (e : exn) : M A := fun g => (Err e, g).

Definition bind {A B} (m : M A) (k : A -> M B) : M B :=
  fun g =>
    match m g with
    | (Ok a, g') => k a g'
    | (Err e, g') => (Err e, g')
    end.

Definition lift {A} (r : res A) : M A := fun g => (r, g).

Notation "x <- m ;; k" := (bind m (fun x => k))
  (at level 61, m at next level, right associativity).

Definition randbelow (n : nat) : M nat :=
  fun g =>
    match g with
    | [] => (Ok 0, [])
    | d :: g' => (Ok (d mod n), g')
    end.

(** [x[i] = v] on a list; Python raises out of range, which [shuffle] never
    reaches (the list is returned unchanged there). *)
Fixpoint update {A} (i : nat) (v : A) (l : list A) : list A :=
  match l, i with
  | [], _ => []
  | _ :: t, O => v :: t
  | a :: t, S i' => a :: update i' v t
  end.

(** [x[i], x[j] = x[j], x[i]]: the right-hand side is read first, then [x[i]]
    and [x[j]] are assigned in that order. *)
Definition swap {A} (i j : nat) (l : list A) : list A :=
  match nth_error l i, nth_error l j with
  | Some xi, Some xj => update j xi (update i xj l)
  | _, _ => l
  end.

(** The loop of [random.shuffle]:
    [for i in reversed(range(1, len(x))): j = randbelow(i + 1); swap]. *)
Fixpoint shuffle_from {A} (i : nat) (x : list A) : M (list A) :=
  match i with
  | O => ret x
  | S i' =>
      j <- randbelow (i + 1) ;;
      shuffle_from i' (swap i j x)
  end.

Definition shuffle {A} (x : list A) : M (list A) :=
  shuffle_from (List.length x - 1) x.

(** ** Collaborators outside this module *)

(** Modelled from the spec: [Mode] is imported from
    [model_training.custom_datasets.entities], which is not part of the
    formatter; the specification lists its three members,
    [SupervisedFineTuning], [RewardModel] and [ReinforcementLearning]. *)
Inductive Mode : Type := sft | rm | rl.

Definition Mode_eqb (a b : Mode) : bool :=
  match a, b with
  | sft, sft | rm, rm | rl, rl => true
  | _, _ => false
  end.

(** Modelled from the spec: [Language] is imported from the same [entities]
    module; the specification calls it a closed set of supported language
    identifiers and says that a value outside the set fails construction.
    [Language_validate] is the type's validation of a raw code and
    [Language_str] its string form. *)
Class Entities : Type := {
  Language : Type;
  Language_validate : string -> option Language;
  Language_str : Language -> string
}.

(** Python builtins on values this module hands them: [round(v, 1)] and
    [str(v)] on a [float], and [str(v)] on a list of [str]. *)
Class Builtins : Type := {
  round1 : float -> float;
  str_float : float -> string;
  str_list : list string -> string
}.

(** ** pydantic's field validation

    A keyword argument of an optional field is either left out or passed, and
    a passed value may be [None]. *)
Inductive arg (A : Type) : Type :=
| Omitted
| Passed (v : option A).

Arguments Omitted {A}.
Arguments Passed {A} v.

(** Validation of one optional field that has no default and is not
    [always]-validated (pydantic v1, [ModelField.validate]): a field that is
    left out gets [None] and its validators are not run; a passed [None] skips
    the type's own validation and runs the class validators; any other value
    goes through the type's validation and then the class validators. *)
Definition validate_field {A B : Type}
  (type_validator : A -> res B) (class_validator : option B -> res (option B))
  (a : arg A) : res (option B) :=
  match a with
  | Omitted => Ok None
  | Passed None => class_validator None
  | Passed (Some x) =>
      match type_validator x with
      | Ok y => class_validator (Some y)
      | Err e => Err e
      end
  end.

(** A field without class validators. *)
Definition no_validator {B : Type} (v : option B) : res (option B) := Ok v.

Definition location (name : string) {A : Type} (r : res A) : list (string * exn) :=
  match r with
  | Ok _ => []
  | Err e => [(name, e)]
  end.

Section Formatting.

Context {entities : Entities} {builtins : Builtins}.

(** ** DatasetEntry *)

Record DatasetEntry : Type := mkDatasetEntry {
  questions : list string;
  answers : list string;
  context : option string;
  lang : option Language;
  length : option Z;
  quality : option float;
  humor : option float;
  creativity : option float
}.

(** The result of calling the class: an entry, or pydantic's
    [ValidationError] with one [(field, cause)] per failed field. *)
Inductive constructed : Type :=
| Entry (e : DatasetEntry)
| ValidationError (errors : list (string * exn)).

(** [v is not None and p(v)]. *)
Definition is_not_None_and {A : Type} (v : option A) (p : A -> bool) : bool :=
  match v with
  | Some x => p x
  | None => false
  end.

(** [f"{v}"] for a value that may be [None]. *)
Definition format_opt {A : Type} (to_str : A -> string) (v : option A) : string :=
  match v with
  | Some x => to_str x
  | None => "None"
  end.

(** [@validator("length")]. *)
Definition above_zero (v : option Z) : res (option Z) :=
  if is_not_None_and v (fun z => (z <? 0)%Z)
  then Err (ValueError ("Length cannot be lower than 0. Received " ++ format_opt str_int v))
  else Ok v.

(** [0 <= v <= 1] on a [float]. *)
Definition in_0_1 (v : float) : bool :=
  (PrimFloat.leb 0%float v && PrimFloat.leb v 1%float)%bool.

(** [round(v, 1)] on the validator's argument: a [float] is rounded, [None]
    has no [__round__]. *)
Definition round_1 (v : option float) : res (option float) :=
  match v with
  | Some x => Ok (Some (round1 x))
  | None => Err (TypeError "type NoneType doesn't define __round__ method")
  end.

(** [@validator("quality", "humor", "creativity")]: the guard of the range
    test lets [None] through to [round]. *)
Definition between_0_1 (field_name : string) (v : option float) : res (option float) :=
  if is_not_None_and v (fun x => negb (in_0_1 x))
  then Err (ValueError ("Field " ++ field_name ++ " must be between 0 and 1. Received "
                        ++ format_opt str_float v ++ "."))
  else round_1 v.

Definition validate_Language (code : string) : res Language :=
  match Language_validate code with
  | Some l => Ok l
  | None => Err (ValueError ("not a supported language: " ++ code))
  end.

(** [DatasetEntry(questions=..., answers=..., ...)]: every field is validated,
    in declaration order, and the failures are collected. *)
Definition construct
  (questions_ answers_ : list string) (context_ : arg string) (lang_ : arg string)
  (length_ : arg Z) (quality_ humor_ creativity_ : arg float) : constructed :=
  let c := validate_field Ok no_validator context_ in
  let l := validate_field validate_Language no_validator lang_ in
  let n := validate_field Ok above_zero length_ in
  let q := validate_field Ok (between_0_1 "quality") quality_ in
  let h := validate_field Ok (between_0_1 "humor") humor_ in
  let k := validate_field Ok (between_0_1 "creativity") creativity_ in
  match c, l, n, q, h, k with
  | Ok c', Ok l', Ok n', Ok q', Ok h', Ok k' =>
      Entry (mkDatasetEntry questions_ answers_ c' l' n' q' h' k')
  | _, _, _, _, _, _ =>
      ValidationError (location "context" c ++ location "lang" l ++ location "length" n
                       ++ location "quality" q ++ location "humor" h
                       ++ location "creativity" k)%list
  end.

(** ** The system tag *)

(** The values found in [self.__dict__]. *)
Inductive value : Type :=
| VNone
| VStr (s : string)
| VList (l : list string)
| VLang (l : Language)
| VInt (z : Z)
| VFloat (f : float).

Definition value_of {A : Type} (inj : A -> value) (o : option A) : value :=
  match o with
  | Some a => inj a
  | None => VNone
  end.

(** [self.__dict__.items()]: the fields in declaration order. *)
Definition dict_items (self : DatasetEntry) : list (string * value) :=
  [ ("questions", VList (questions self));
    ("answers", VList (answers self));
    ("context", value_of VStr (context self));
    ("lang", value_of VLang (lang self));
    ("length", value_of VInt (length self));
    ("quality", value_of VFloat (quality self));
    ("humor", value_of VFloat (humor self));
    ("creativity", value_of VFloat (creativity self)) ].

Definition str (v : value) : string :=
  match v with
  | VNone => "None"
  | VStr s => s
  | VList l => str_list l
  | VLang l => Language_str l
  | VInt z => str_int z
  | VFloat f => str_float f
  end.

Definition is_not_None (v : value) : bool :=
  match v with
  | VNone => false
  | _ => true
  end.

(** [k in keys]. *)
Definition key_in (k : string) (keys : list string) : bool :=
  existsb (String.eqb k) keys.

(** The condition of the comprehension in [system_tag]. *)
Definition relevant (kv : string * value) : bool :=
  let (k, v) := kv in
  (negb (key_in k ["questions"; "answers"]) && is_not_None v
   && truthy (remove_newlines (str v)))%bool.

Definition relevant_system_infos (self : DatasetEntry) : list (string * value) :=
  filter relevant (dict_items self).

(** [f"{k}: {v}"]. *)
Definition key_value_line (kv : string * value) : string :=
  let (k, v) := kv in k ++ ": " ++ str v.

Definition system_tag (self : DatasetEntry) (eos_token : string) : M (option string) :=
  let infos := relevant_system_infos self in
  if (0 <? List.length infos)%nat then
    shuffled <- shuffle infos ;;
    let system_tag_key_values := join nl (map key_value_line shuffled) in
    ret (Some (QA_SPECIAL_TOKENS System ++ system_tag_key_values ++ nl ++ eos_token))
  else ret None.

(** ** Rendering *)

(** What [get_formatted] hands back: a [str], a [list[str]], or the [None] of
    a function that falls off its end. *)
Inductive formatted : Type :=
| Text (s : string)
| Sequence (l : list string)
| NoValue.

(** [l[0]]. *)
Definition first_item (l : list string) : res string :=
  match l with
  | x :: _ => Ok x
  | [] => Err (IndexError "list index out of range")
  end.

(** [itertools.zip_longest(l1, l2)]: the shorter list is padded with [None]. *)
Fixpoint zip_longest {A B : Type} (l1 : list A) (l2 : list B)
  : list (option A * option B) :=
  match l1 with
  | [] => map (fun b => (None, Some b)) l2
  | a :: t1 =>
      match l2 with
      | [] => (Some a, None) :: zip_longest t1 []
      | b :: t2 => (Some a, Some b) :: zip_longest t1 t2
      end
  end.

Definition question_turn (q eos_token : string) : string :=
  QA_SPECIAL_TOKENS Question ++ q ++ eos_token.

Definition answer_turn (a eos_token : string) : string :=
  QA_SPECIAL_TOKENS Answer ++ a ++ eos_token.

(** The [for q, a in zip_longest(...)] loop with its [match]; [qa_list] is the
    list built so far. *)
Fixpoint qa_loop (eos_token : string) (pairs : list (option string * option string))
  (qa_list : list string) : res (list string) :=
  match pairs with
  | [] => Ok qa_list
  | (Some q, Some a) :: rest =>
      qa_loop eos_token rest
        (qa_list ++ [question_turn q eos_token; answer_turn a eos_token])%list
  | (Some q, None) :: rest =>
      qa_loop eos_token rest (qa_list ++ [question_turn q eos_token])%list
  | (None, None) :: _ => Ok qa_list
  | (None, Some _) :: _ =>
      Err (ValueError "Received answer without getting corresponding question. Aborting")
  end.

Definition get_formatted (self : DatasetEntry) (mode : Mode) (eos_token : string)
  : M formatted :=
  system_tag_ <- system_tag self eos_token ;;
  if Mode_eqb mode rl then
    match system_tag_ with
    | Some tag =>
        q0 <- lift (first_item (questions self)) ;;
        ret (Text (tag ++ QA_SPECIAL_TOKENS Question ++ q0 ++ QA_SPECIAL_TOKENS Answer))
    | None =>
        q0 <- lift (first_item (questions self)) ;;
        ret (Text (QA_SPECIAL_TOKENS Question ++ q0 ++ QA_SPECIAL_TOKENS Answer))
    end
  else
    let qa_list := match system_tag_ with Some tag => [tag] | None => [] end in
    qa_list' <- lift (qa_loop eos_token (zip_longest (questions self) (answers self)) qa_list) ;;
    if Mode_eqb mode sft then ret (Sequence qa_list')
    else if Mode_eqb mode rm
    then raise (NotImplementedError "This is currently not implemented.")
    else ret NoValue.

(** The class method builds a [NotImplementedError] and drops it: the body is
    an expression statement, there is no [raise], and the call returns
    [None]. *)
Definition create_from_prompter_assistant_interplay (qa : list (string * string))
  : res unit :=
  let _ := NotImplementedError "Function not implemented currently." in
  Ok tt.

(** ** Free functions *)

(** The first argument of [format_pairs]: [list[str] | DatasetEntry]. *)
Inductive pairs_arg : Type :=
| PairsList (l : list string)
| PairsEntry (e : DatasetEntry).

(** The comprehension of the legacy path, over [range(len(pairs))]. *)
Definition conversations_of (pairs : list string) (eos_token : string) : list string :=
  map (fun i =>
         QA_SPECIAL_TOKENS (if (i mod 2 =? 0)%nat then Question else Answer)
         ++ nth i pairs EmptyString ++ eos_token)
      (seq 0 (List.length pairs)).

Definition format_pairs (pairs : pairs_arg) (eos_token : string)
  (add_initial_reply_token : bool) (mode : option Mode) : M formatted :=
  match pairs, mode with
  | PairsEntry e, Some m => get_formatted e m eos_token
  | PairsList l, _ =>
      let conversations := conversations_of l eos_token in
      if add_initial_reply_token
      then ret (Sequence (conversations ++ [QA_SPECIAL_TOKENS Answer])%list)
      else ret (Sequence conversations)
  | PairsEntry _, None =>
      raise (TypeError "object of type 'DatasetEntry' has no len()")
  end.

Definition format_rl_text (pairs : list string) : res string :=
  match first_item pairs with
  | Ok p0 => Ok (QA_SPECIAL_TOKENS Question ++ p0 ++ QA_SPECIAL_TOKENS Answer)
  | Err e => Err e
  end.

Definition format_reply (text eos_token : string) : string :=
  QA_SPECIAL_TOKENS Answer ++ text ++ eos_token.

End Formatting.

(** ** A concrete environment

    The theorems below hold for every [Entities] and [Builtins].  To evaluate
    the functions on closed inputs, this module fixes one of each: a language
    set of four codes; [round(v, 1)] computed on the exact value of [v], ties
    to even, as CPython does, for the finite non-negative [v] that the
    validator lets through; [str] of a [float] printed to one decimal, which
    is Python's output on the tenths that construction stores; and [str] of a
    list of plain strings. *)
Module Sample.

Definition supported : list string := ["en"; "de"; "fr"; "es"].

#[export] Instance entities : Entities := {|
  Language := string;
  Language_validate := fun code => if key_in code supported then Some code else None;
  Language_str := fun l => l
|}.

(** Round half to even of [num / den], for [den > 0]. *)
Definition div_half_even (num den : Z) : Z :=
  let q := (num / den)%Z in
  let r := (num mod den)%Z in
  match (2 * r ?= den)%Z with
  | Lt => q
  | Gt => (q + 1)%Z
  | Eq => if Z.even q then q else (q + 1)%Z
  end.

(** The number of tenths nearest to a finite non-negative [v], ties to even,
    computed on the exact value [m * 2^e] of [v]. *)
Definition tenths (v : float) : Z :=
  match FloatOps.Prim2SF v with
  | SpecFloat.S754_finite false m e =>
      if (0 <=? e)%Z then (10 * Z.pos m * 2 ^ e)%Z
      else div_half_even (10 * Z.pos m) (2 ^ (- e))
  | _ => 0%Z
  end.

Definition float_of_Z (n : Z) : float := PrimFloat.of_uint63 (Uint63.of_Z n).

#[export] Instance builtins : Builtins := {|
  round1 := fun v => PrimFloat.div (float_of_Z (tenths v)) 10%float;
  str_float := fun v =>
    str_int (tenths v / 10) ++ "." ++ str_int (tenths v mod 10);
  str_list := fun l => "[" ++ join ", " (map (fun s => "'" ++ s ++ "'") l) ++ "]"
|}.

(** An entry with no metadata. *)
Definition bare (qs as_ : list string) : DatasetEntry :=
  mkDatasetEntry qs as_ None None None None None None.

(** An entry whose only metadata is a length. *)
Definition with_length (qs as_ : list string) (n : Z) : DatasetEntry :=
  mkDatasetEntry qs as_ None None (Some n) None None None.

(** An entry whose context is a lone newline, blank once newlines are removed. *)
Definition blank_context (qs as_ : list string) : DatasetEntry :=
  mkDatasetEntry qs as_ (Some nl) None None None None None.

(** The SupervisedFineTuning render of [with_length ["Q1"; "Q2"] ["A1"] 5]. *)
Definition with_length_render : list string :=
  ["<|system|>length: 5" ++ nl ++ "</s>";
   "<|prompter|>Q1</s>"; "<|assistant|>A1</s>"; "<|prompter|>Q2</s>"].

End Sample.

(** ** Vocabulary of the specification

    The definitions of this part follow the specification's words; the
    theorems compare them with the functions above. *)

Section Vocabulary.

Context {entities : Entities} {builtins : Builtins}.

(** The specification's StructuralError ("answer without a question") and
    NotImplemented, as [get_formatted] raises them. *)
Definition answer_without_question : exn :=
  ValueError "Received answer without getting corresponding question. Aborting".

Definition not_implemented : exn :=
  NotImplementedError "This is currently not implemented.".

(** What [round(None, 1)] raises. *)
Definition round_of_None : exn :=
  TypeError "type NoneType doesn't define __round__ method".

(** "If a system tag exists, it is the first element." *)
Definition tag_element (t : option string) : list string :=
  match t with
  | Some tag => [tag]
  | None => []
  end.

(** "The optional system tag (if present) immediately followed by ...". *)
Definition tag_text (t : option string) : string :=
  match t with
  | Some tag => tag
  | None => EmptyString
  end.

(** "Both present at a position: a Question-tagged question and an
    Answer-tagged answer, as two separate sequence elements." *)
Fixpoint paired_turns (eos_token : string) (qs as_ : list string) : list string :=
  match qs, as_ with
  | q :: qs', a :: as' =>
      question_turn q eos_token :: answer_turn a eos_token :: paired_turns eos_token qs' as'
  | _, _ => []
  end.

(** The walk of the specification's text: an unanswered question is appended
    and the walk stops there. *)
Fixpoint transcript_stopping (eos_token : string) (qs as_ : list string) : list string :=
  match qs, as_ with
  | q :: qs', a :: as' =>
      question_turn q eos_token :: answer_turn a eos_token
        :: transcript_stopping eos_token qs' as'
  | q :: _, [] => [question_turn q eos_token]
  | [], _ => []
  end.

(** The longest prefix of [l] whose elements satisfy [p]. *)
Fixpoint take_while {A : Type} (p : A -> bool) (l : list A) : list A :=
  match l with
  | x :: t => if p x then x :: take_while p t else []
  | [] => []
  end.

(** The number of Question-tagged elements at the end of a rendered sequence:
    the questions that no answer follows. *)
Definition trailing_questions (out : list string) : nat :=
  List.length (take_while (String.prefix (QA_SPECIAL_TOKENS Question)) (rev out)).

(** "Null or blank after newline strip", for a field with string form
    [to_str]. *)
Definition unset {A : Type} (to_str : A -> string) (o : option A) : Prop :=
  match o with
  | None => True
  | Some a => remove_newlines (to_str a) = EmptyString
  end.

Definition all_unset (self : DatasetEntry) : Prop :=
  unset (fun s => s) (context self) /\ unset Language_str (lang self)
  /\ unset str_int (length self) /\ unset str_float (quality self)
  /\ unset str_float (humor self) /\ unset str_float (creativity self).

(** The line ["fieldName: value"] of a set field, nothing for an unset one. *)
Definition line_of {A : Type} (name : string) (to_str : A -> string) (o : option A)
  : list string :=
  match o with
  | Some a =>
      if truthy (remove_newlines (to_str a)) then [name ++ ": " ++ to_str a] else []
  | None => []
  end.

(** The lines of the set metadata fields, over the explicit list of metadata
    field names. *)
Definition set_lines (self : DatasetEntry) : list string :=
  (line_of "context" (fun s => s) (context self)
   ++ line_of "lang" Language_str (lang self)
   ++ line_of "length" str_int (length self)
   ++ line_of "quality" str_float (quality self)
   ++ line_of "humor" str_float (humor self)
   ++ line_of "creativity" str_float (creativity self))%list.

(** The first two characters of a line; they tell the metadata fields apart. *)
Definition initials (line : string) : string :=
  match line with
  | String a (String b _) => String a (String b EmptyString)
  | _ => line
  end.

(** The block of the system tag over the lines [lines]. *)
Definition system_block (lines : list string) (eos_token : string) : string :=
  QA_SPECIAL_TOKENS System ++ join nl lines ++ nl ++ eos_token.

(** "Alternates Question/Answer tags by position", starting with [k]. *)
Definition other_tag (k : token_key) : token_key :=
  match k with
  | Question => Answer
  | _ => Question
  end.

Fixpoint alternate (k : token_key) (l : list string) (eos_token : string) : list string :=
  match l with
  | [] => []
  | x :: t => (QA_SPECIAL_TOKENS k ++ x ++ eos_token) :: alternate (other_tag k) t eos_token
  end.

(** The three conditions under which the specification lets construction
    fail. *)
Definition present {A : Type} (p : A -> Prop) (a : arg A) : Prop :=
  exists x, a = Passed (Some x) /\ p x.

Definition rejected (lang_ : arg string) (length_ : arg Z)
  (quality_ humor_ creativity_ : arg float) : Prop :=
  present (fun z => (z < 0)%Z) length_
  \/ present (fun v => in_0_1 v = false) quality_
  \/ present (fun v => in_0_1 v = false) humor_
  \/ present (fun v => in_0_1 v = false) creativity_
  \/ present (fun code => Language_validate code = None) lang_.

(** The value an argument carries. *)
Definition given {A : Type} (a : arg A) : option A :=
  match a with
  | Passed v => v
  | Omitted => None
  end.

(** The language stored for a code that passes validation. *)
Definition stored_lang (a : arg string) : option Language :=
  match a with
  | Passed (Some code) => Language_validate code
  | _ => None
  end.

(** The value stored for a label that passes validation. *)
Definition stored_label (a : arg float) : option float :=
  match a with
  | Passed (Some v) => Some (round1 v)
  | _ => None
  end.

(** The flat list of the turns of a conversation: question, answer, question,
    ..., and then the questions that no answer follows. *)
Fixpoint interleave (qs as_ : list string) : list string :=
  match qs, as_ with
  | q :: qs', a :: as' => q :: a :: interleave qs' as'
  | _, [] => qs
  | [], _ :: _ => []
  end.

(** An element of a rendered sequence that starts with the marker of [k]. *)
Definition tagged (k : token_key) (s : string) : bool :=
  String.prefix (QA_SPECIAL_TOKENS k) s.

(** A string that ends with [suffix]. *)
Definition ends_with (suffix s : string) : Prop :=
  exists body, s = body ++ suffix.

End Vocabulary.

(** * Properties *)

(** ** The shuffle rearranges and never fails *)

Lemma update_length {A : Type} (i : nat) (v : A) (l : list A) :
  List.length (update i v l) = List.length l.
Proof.
  revert i; induction l as [|a t IH]; intros [|i]; simpl; auto.
Qed.

Lemma nth_error_update_same {A : Type} (i : nat) (v x : A) (l : list A) :
  nth_error l i = Some x -> nth_error (update i v l) i = Some v.
Proof.
  revert i; induction l as [|a t IH]; intros [|i]; simpl; try discriminate; auto.
Qed.

Lemma nth_error_update_other {A : Type} (i j : nat) (v : A) (l : list A) :
  i <> j -> nth_error (update i v l) j = nth_error l j.
Proof.
  revert i j; induction l as [|a t IH]; intros [|i] [|j] Hij; simpl; auto.
  contradiction.
Qed.

(** Overwriting the element [x] at position [i] with [v] trades [x] for [v]. *)
Lemma update_trades {A : Type} (i : nat) (v x : A) (l : list A) :
  nth_error l i = Some x -> Permutation (x :: update i v l) (v :: l).
Proof.
  revert i; induction l as [|a t IH]; intros [|i]; simpl; try discriminate.
  - intros [= ->]. apply perm_swap.
  - intros H. apply perm_trans with (a :: x :: update i v t).
    + apply perm_swap.
    + apply perm_trans with (a :: v :: t).
      * apply perm_skip, IH, H.
      * apply perm_swap.
Qed.

Lemma swap_permutation {A : Type} (i j : nat) (l : list A) :
  Permutation l (swap i j l).
Proof.
  unfold swap.
  destruct (nth_error l i) as [xi|] eqn:Hi; [|apply Permutation_refl].
  destruct (nth_error l j) as [xj|] eqn:Hj; [|apply Permutation_refl].
  assert (H1 : Permutation (xi :: update i xj l) (xj :: l))
    by (apply update_trades, Hi).
  assert (Hj' : nth_error (update i xj l) j = Some xj).
  { destruct (Nat.eq_dec i j) as [->|Hne].
    - eapply nth_error_update_same, Hi.
    - rewrite nth_error_update_other by exact Hne. exact Hj. }
  assert (H2 : Permutation (xj :: update j xi (update i xj l)) (xi :: update i xj l))
    by (apply update_trades, Hj').
  apply Permutation_sym, Permutation_cons_inv with (a := xj).
  eapply perm_trans; [exact H2 | exact H1].
Qed.

Lemma swap_length {A : Type} (i j : nat) (l : list A) :
  List.length (swap i j l) = List.length l.
Proof.
  symmetry. apply Permutation_length, swap_permutation.
Qed.

Lemma shuffle_from_permutation {A : Type} (i : nat) (x : list A) (g : Rng) :
  exists x' g', shuffle_from i x g = (Ok x', g') /\ Permutation x x'.
Proof.
  revert x g; induction i as [|i IH]; intros x g.
  - exists x, g. split; [reflexivity | apply Permutation_refl].
  - cbn [shuffle_from]. unfold bind.
    destruct g as [|d g]; cbn [randbelow].
    + destruct (IH (swap (S i) 0 x) []) as (x' & g' & E & P).
      exists x', g'. split; [exact E|].
      eapply perm_trans; [apply swap_permutation | exact P].
    + destruct (IH (swap (S i) (d mod (S i + 1)) x) g) as (x' & g' & E & P).
      exists x', g'. split; [exact E|].
      eapply perm_trans; [apply swap_permutation | exact P].
Qed.

Lemma shuffle_permutation {A : Type} (x : list A) (g : Rng) :
  exists x' g', shuffle x g = (Ok x', g') /\ Permutation x x'.
Proof.
  apply shuffle_from_permutation.
Qed.

Section Properties.

Context {entities : Entities} {builtins : Builtins}.

(** ** The system tag *)

Lemma truthy_false_iff (s : string) : truthy s = false <-> s = EmptyString.
Proof.
  destruct s; simpl; split; congruence.
Qed.

Lemma line_of_nil_iff {A : Type} (name : string) (to_str : A -> string) (o : option A) :
  line_of name to_str o = [] <-> unset to_str o.
Proof.
  destruct o as [a|]; simpl; [|tauto].
  rewrite <- truthy_false_iff.
  destruct (truthy (remove_newlines (to_str a))); split; congruence.
Qed.

Lemma set_lines_nil_iff (self : DatasetEntry) : set_lines self = [] <-> all_unset self.
Proof.
  unfold set_lines, all_unset.
  split.
  - intros H.
    repeat (apply app_eq_nil in H; destruct H as [? H]).
    repeat split; eapply line_of_nil_iff; eassumption.
  - intros (H1 & H2 & H3 & H4 & H5 & H6).
    apply (line_of_nil_iff "context") in H1.
    apply (line_of_nil_iff "lang") in H2.
    apply (line_of_nil_iff "length") in H3.
    apply (line_of_nil_iff "quality") in H4.
    apply (line_of_nil_iff "humor") in H5.
    apply (line_of_nil_iff "creativity") in H6.
    rewrite H1, H2, H3, H4, H5, H6. reflexivity.
Qed.

(** The comprehension over [__dict__] selects the lines of the set fields, in
    declaration order. *)
Lemma relevant_lines (self : DatasetEntry) :
  map key_value_line (relevant_system_infos self) = set_lines self.
Proof.
  destruct self as [qs as_ c l n q h k].
  unfold relevant_system_infos, dict_items, set_lines, line_of; cbn.
  destruct c as [c|], l as [l|], n as [n|], q as [q|], h as [h|], k as [k|]; cbn;
    repeat match goal with
           | |- context [truthy ?s] => destruct (truthy s); cbn
           end;
    reflexivity.
Qed.

Lemma line_of_initials {A : Type} (a b : ascii) (rest : string)
  (to_str : A -> string) (o : option A) :
  map initials (line_of (String a (String b rest)) to_str o) = []
  \/ map initials (line_of (String a (String b rest)) to_str o)
     = [String a (String b EmptyString)].
Proof.
  destruct o as [x|]; simpl; [|auto].
  destruct (truthy (remove_newlines (to_str x))); [right | left]; reflexivity.
Qed.

(** No two set fields share a line. *)
Lemma set_lines_NoDup (self : DatasetEntry) : NoDup (set_lines self).
Proof.
  apply NoDup_map_inv with (f := initials).
  unfold set_lines. rewrite !map_app.
  destruct (line_of_initials "c" "o" "ntext" (fun s => s) (context self)) as [-> | ->];
  destruct (line_of_initials "l" "a" "ng" Language_str (lang self)) as [-> | ->];
  destruct (line_of_initials "l" "e" "ngth" str_int (length self)) as [-> | ->];
  destruct (line_of_initials "q" "u" "ality" str_float (quality self)) as [-> | ->];
  destruct (line_of_initials "h" "u" "mor" str_float (humor self)) as [-> | ->];
  destruct (line_of_initials "c" "r" "eativity" str_float (creativity self)) as [-> | ->];
  simpl;
  repeat (constructor; [simpl; intuition discriminate|]);
  constructor.
Qed.

(** [system_tag] never raises; it answers [None] when no field is set and the
    block over a rearrangement of the set fields' lines otherwise. *)
Lemma system_tag_spec (self : DatasetEntry) (eos_token : string) (g : Rng) :
  exists lines g',
    Permutation (set_lines self) lines
    /\ system_tag self eos_token g
       = (Ok (match lines with
              | [] => None
              | _ :: _ => Some (system_block lines eos_token)
              end), g').
Proof.
  unfold system_tag.
  rewrite <- relevant_lines.
  destruct (relevant_system_infos self) as [|kv infos] eqn:E.
  - exists [], g. split; [apply perm_nil | reflexivity].
  - replace (0 <? List.length (kv :: infos))%nat with true by reflexivity.
    destruct (shuffle_permutation (kv :: infos) g) as (shuffled & g' & Hs & Hp).
    exists (map key_value_line shuffled), g'. split.
    + apply Permutation_map, Hp.
    + unfold bind. rewrite Hs.
      destruct shuffled as [|kv' rest].
      * apply Permutation_sym, Permutation_nil in Hp. discriminate.
      * reflexivity.
Qed.

Lemma system_tag_total (self : DatasetEntry) (eos_token : string) (g : Rng) :
  exists t g', system_tag self eos_token g = (Ok t, g').
Proof.
  destruct (system_tag_spec self eos_token g) as (lines & g' & _ & E).
  eauto.
Qed.

(** C8. [system_tag] (BuildSystemTag) answers absent exactly when every
    metadata field other than [questions]/[answers] is null or has an empty
    string form once its newline characters are removed.  Otherwise it answers
    one block, opened by the System marker and closed by the eos marker, over
    lines that are a rearrangement of the lines ["fieldName: value"] of the set
    fields: each set field has its line in the block exactly once, and the
    lines are the same for every call.  Their order depends on the random
    source: two calls on one entry can answer different blocks. *)
Theorem system_tag_absent_or_block :
  (forall (self : DatasetEntry) (eos_token : string) (g : Rng),
      (fst (system_tag self eos_token g) = Ok None <-> all_unset self)
      /\ exists lines,
          Permutation (set_lines self) lines /\ NoDup lines
          /\ (~ all_unset self ->
              fst (system_tag self eos_token g)
              = Ok (Some (system_block lines eos_token))))
  /\ (exists (self : DatasetEntry) (eos_token : string) (g1 g2 : Rng),
         fst (system_tag self eos_token g1) <> fst (system_tag self eos_token g2)).
Proof.
  split.
  - intros self eos_token g.
    destruct (system_tag_spec self eos_token g) as (lines & g' & Hp & E).
    rewrite E; cbn [fst].
    assert (Hnil : lines = [] <-> all_unset self).
    { rewrite <- set_lines_nil_iff. split; intros H.
      - subst lines. apply Permutation_sym, Permutation_nil in Hp. exact Hp.
      - rewrite H in Hp. apply Permutation_nil in Hp. exact Hp. }
    split.
    + rewrite <- Hnil. destruct lines; split; congruence.
    + exists lines. split; [exact Hp|]. split.
      * eapply Permutation_NoDup; [exact Hp | apply set_lines_NoDup].
      * intros Hset. destruct lines; [|reflexivity].
        exfalso. apply Hset, Hnil. reflexivity.
  - exists (mkDatasetEntry [] [] (Some "ctx") None (Some 5%Z) None None None),
      "</s>", [0], [1].
    cbv. discriminate.
Qed.

Lemma system_tag_unset (self : DatasetEntry) (eos_token : string) (g : Rng) :
  all_unset self -> system_tag self eos_token g = (Ok None, g).
Proof.
  intros H. apply set_lines_nil_iff in H.
  rewrite <- relevant_lines in H. apply map_eq_nil in H.
  unfold system_tag. rewrite H. reflexivity.
Qed.

(** ** The walk over questions and answers *)

Lemma paired_turns_nil_r (eos_token : string) (qs : list string) :
  paired_turns eos_token qs [] = [].
Proof.
  destruct qs; reflexivity.
Qed.

(** When no answer lacks a question the loop ends normally, having appended
    the paired turns and then every remaining question. *)
Lemma qa_loop_covered (eos_token : string) (qs as_ acc : list string) :
  List.length as_ <= List.length qs ->
  qa_loop eos_token (zip_longest qs as_) acc
  = Ok (acc ++ paired_turns eos_token qs as_
            ++ map (fun q => question_turn q eos_token) (skipn (List.length as_) qs))%list.
Proof.
  revert as_ acc; induction qs as [|q qs IH]; intros [|a as_] acc Hlen;
    simpl in Hlen; try lia.
  - simpl. rewrite app_nil_r. reflexivity.
  - cbn [zip_longest qa_loop]. rewrite IH by (simpl; lia).
    rewrite paired_turns_nil_r. cbn [List.length skipn paired_turns app map].
    rewrite <- app_assoc. reflexivity.
  - cbn [zip_longest qa_loop]. rewrite IH by lia.
    cbn [List.length skipn paired_turns].
    rewrite <- app_assoc. reflexivity.
Qed.

(** When answers outnumber questions the loop raises. *)
Lemma qa_loop_exceeding (eos_token : string) (qs as_ acc : list string) :
  List.length qs < List.length as_ ->
  qa_loop eos_token (zip_longest qs as_) acc = Err answer_without_question.
Proof.
  revert as_ acc; induction qs as [|q qs IH]; intros [|a as_] acc Hlen;
    simpl in Hlen; try lia.
  - reflexivity.
  - cbn [zip_longest qa_loop]. apply IH. lia.
Qed.

(** ** Rendering *)

(** Every proof about [get_formatted] starts by running [system_tag], whose
    outcome is recorded in the equation [E]. *)
Ltac run_system_tag E :=
  unfold get_formatted, bind, lift; rewrite E; cbn [Mode_eqb].

(** C1, as amended.  In SupervisedFineTuning mode, a position that has only a
    question appends the Question-tagged question and the walk goes on with the
    next position: when no answer lacks a question, the output is the system
    tag (when present), the paired turns, and then one Question-tagged element
    for every question left after the answers ran out. *)
Theorem sft_appends_every_question (self : DatasetEntry) (eos_token : string) (g : Rng)
  (H : List.length (answers self) <= List.length (questions self)) :
  exists t g',
    system_tag self eos_token g = (Ok t, g')
    /\ get_formatted self sft eos_token g
       = (Ok (Sequence
                (tag_element t
                 ++ paired_turns eos_token (questions self) (answers self)
                 ++ map (fun q => question_turn q eos_token)
                      (skipn (List.length (answers self)) (questions self)))%list), g').
Proof.
  destruct (system_tag_total self eos_token g) as (t & g' & E).
  exists t, g'. split; [exact E|].
  run_system_tag E.
  rewrite qa_loop_covered by exact H.
  destruct t; reflexivity.
Qed.

(** C3, as amended.  In RewardModel mode [get_formatted] fails for every
    entry and every eos marker: with the StructuralError of the walk when
    answers outnumber questions, and with NotImplemented otherwise. *)
Theorem rm_always_fails (self : DatasetEntry) (eos_token : string) (g : Rng) :
  exists g',
    get_formatted self rm eos_token g
    = (Err (if (List.length (questions self) <? List.length (answers self))%nat
            then answer_without_question
            else not_implemented), g').
Proof.
  destruct (system_tag_total self eos_token g) as (t & g' & E).
  exists g'.
  run_system_tag E.
  destruct (Nat.ltb_spec (List.length (questions self)) (List.length (answers self)))
    as [Hlt|Hge].
  - rewrite qa_loop_exceeding by exact Hlt. reflexivity.
  - rewrite qa_loop_covered by exact Hge. reflexivity.
Qed.

(** C6.  In SupervisedFineTuning mode, when answers outnumber questions (some
    position has an answer and no question) [get_formatted] raises the
    StructuralError and returns no sequence at all. *)
Theorem sft_answer_without_question (self : DatasetEntry) (eos_token : string) (g : Rng)
  (H : List.length (questions self) < List.length (answers self)) :
  exists g',
    get_formatted self sft eos_token g = (Err answer_without_question, g')
    /\ is_StructuralError answer_without_question = true.
Proof.
  destruct (system_tag_total self eos_token g) as (t & g' & E).
  exists g'. split; [|reflexivity].
  run_system_tag E.
  rewrite qa_loop_exceeding by exact H. reflexivity.
Qed.

(** C7.  In ReinforcementLearning mode, for an entry whose questions are
    [q :: rest], [get_formatted] returns the single string made of the system
    tag (when present), the Question marker, [q], and the Answer marker: no eos
    marker follows, and neither [rest] nor the answers appear.  With no
    metadata set the string is exactly the Question marker, [q] and the Answer
    marker. *)
Theorem rl_first_question_only (self : DatasetEntry) (eos_token : string) (g : Rng)
  (q : string) (rest : list string) (H : questions self = q :: rest) :
  (exists t g',
      system_tag self eos_token g = (Ok t, g')
      /\ get_formatted self rl eos_token g
         = (Ok (Text (tag_text t ++ QA_SPECIAL_TOKENS Question ++ q
                      ++ QA_SPECIAL_TOKENS Answer)), g'))
  /\ (all_unset self ->
      get_formatted self rl eos_token g
      = (Ok (Text (QA_SPECIAL_TOKENS Question ++ q ++ QA_SPECIAL_TOKENS Answer)), g)).
Proof.
  split.
  - destruct (system_tag_total self eos_token g) as (t & g' & E).
    exists t, g'. split; [exact E|].
    run_system_tag E. rewrite H. cbn [first_item].
    destruct t; reflexivity.
  - intros Hu.
    unfold get_formatted, bind, lift.
    rewrite (system_tag_unset self eos_token g Hu), H. reflexivity.
Qed.

(** C10.  In ReinforcementLearning mode, for an entry whose questions list is
    empty, [get_formatted] reads [questions[0]] out of range and raises an
    index error instead of returning a string. *)
Theorem rl_empty_questions (self : DatasetEntry) (eos_token : string) (g : Rng)
  (H : questions self = []) :
  exists g',
    get_formatted self rl eos_token g = (Err (IndexError "list index out of range"), g').
Proof.
  destruct (system_tag_total self eos_token g) as (t & g' & E).
  exists g'.
  run_system_tag E. rewrite H. cbn [first_item].
  destruct t; reflexivity.
Qed.

(** ** The legacy path of [format_pairs] *)

Lemma parity_next (s : nat) :
  (if (S s mod 2 =? 0)%nat then Question else Answer)
  = other_tag (if (s mod 2 =? 0)%nat then Question else Answer).
Proof.
  assert (Hs : s mod 2 = 0 \/ s mod 2 = 1)
    by (pose proof (Nat.mod_upper_bound s 2); lia).
  assert (HS : S s mod 2 = 1 - s mod 2).
  { pose proof (Nat.div_mod_eq s 2). pose proof (Nat.div_mod_eq (S s) 2).
    pose proof (Nat.mod_upper_bound (S s) 2). lia. }
  rewrite HS. destruct Hs as [-> | ->]; reflexivity.
Qed.

(** The comprehension over indices, started at parity [s], is the alternation
    of the two tags along the list. *)
Lemma conversations_from (eos_token : string) (l : list string) (s : nat) :
  map (fun i =>
         QA_SPECIAL_TOKENS (if ((s + i) mod 2 =? 0)%nat then Question else Answer)
         ++ nth i l EmptyString ++ eos_token)
      (seq 0 (List.length l))
  = alternate (if (s mod 2 =? 0)%nat then Question else Answer) l eos_token.
Proof.
  revert s; induction l as [|x t IH]; intros s; [reflexivity|].
  cbn [List.length seq map alternate nth].
  rewrite Nat.add_0_r. f_equal.
  rewrite <- seq_shift, map_map, <- parity_next, <- IH.
  apply map_ext. intros i. rewrite Nat.add_succ_r. reflexivity.
Qed.

Lemma conversations_of_alternate (l : list string) (eos_token : string) :
  conversations_of l eos_token = alternate Question l eos_token.
Proof.
  apply (conversations_from eos_token l 0).
Qed.

Lemma conversations_of_length (l : list string) (eos_token : string) :
  List.length (conversations_of l eos_token) = List.length l.
Proof.
  unfold conversations_of. rewrite length_map, length_seq. reflexivity.
Qed.

Lemma conversations_of_nth (l : list string) (eos_token : string) (i : nat) (x : string) :
  nth_error l i = Some x ->
  nth_error (conversations_of l eos_token) i
  = Some (QA_SPECIAL_TOKENS (if (i mod 2 =? 0)%nat then Question else Answer)
          ++ x ++ eos_token).
Proof.
  intros Hx.
  assert (Hi : i < List.length l) by (apply nth_error_Some; congruence).
  unfold conversations_of.
  rewrite nth_error_map, (nth_error_nth' _ 0) by (rewrite length_seq; exact Hi).
  rewrite seq_nth by exact Hi. cbn [option_map Nat.add].
  rewrite (nth_error_nth _ _ EmptyString Hx). reflexivity.
Qed.

(** C9.  On a flat list of strings [format_pairs] takes the legacy path,
    whatever the mode: it returns one string per element, in order, the
    element at an even index behind the Question marker and the one at an odd
    index behind the Answer marker, each followed by the eos marker; with
    [add_initial_reply_token] it appends one last element, the Answer marker
    alone.  On ["a"; "b"; "c"] with the flag the result has the four elements
    the specification lists. *)
Theorem format_pairs_legacy (l : list string) (eos_token : string)
  (add_initial_reply_token : bool) (mode : option Mode) (g : Rng) :
  (exists out,
      format_pairs (PairsList l) eos_token add_initial_reply_token mode g
      = (Ok (Sequence (out ++ if add_initial_reply_token
                              then [QA_SPECIAL_TOKENS Answer] else [])%list), g)
      /\ out = alternate Question l eos_token
      /\ List.length out = List.length l
      /\ forall i x,
          nth_error l i = Some x ->
          nth_error out i
          = Some (QA_SPECIAL_TOKENS (if (i mod 2 =? 0)%nat then Question else Answer)
                  ++ x ++ eos_token))
  /\ format_pairs (PairsList ["a"; "b"; "c"]) eos_token true mode g
     = (Ok (Sequence [QA_SPECIAL_TOKENS Question ++ "a" ++ eos_token;
                      QA_SPECIAL_TOKENS Answer ++ "b" ++ eos_token;
                      QA_SPECIAL_TOKENS Question ++ "c" ++ eos_token;
                      QA_SPECIAL_TOKENS Answer]), g).
Proof.
  split.
  - exists (conversations_of l eos_token). repeat split.
    + unfold format_pairs.
      destruct add_initial_reply_token; [reflexivity|].
      rewrite app_nil_r. reflexivity.
    + apply conversations_of_alternate.
    + apply conversations_of_length.
    + apply conversations_of_nth.
  - reflexivity.
Qed.

(** ** The alternate constructor *)

(** C2 (the code departs from it).  [create_from_prompter_assistant_interplay]
    returns normally on every input: the [NotImplementedError] it builds is
    never raised. *)
Theorem create_from_prompter_assistant_interplay_returns (qa : list (string * string)) :
  create_from_prompter_assistant_interplay qa = Ok tt.
Proof.
  reflexivity.
Qed.

(** ** Construction *)

Lemma validate_context (c : arg string) :
  validate_field Ok no_validator c = Ok (given c).
Proof.
  destruct c as [|[x|]]; reflexivity.
Qed.

Lemma validate_lang_cases (l : arg string) :
  (validate_field validate_Language no_validator l = Ok (stored_lang l)
   /\ ~ present (fun code => Language_validate code = None) l)
  \/ ((exists e, validate_field validate_Language no_validator l = Err e)
      /\ present (fun code => Language_validate code = None) l).
Proof.
  destruct l as [|[code|]]; simpl;
    try (left; split; [reflexivity | intros (x & [=] & _)]).
  unfold validate_Language.
  destruct (Language_validate code) as [v|] eqn:E.
  - left. split; [reflexivity|]. intros (x & [= <-] & Hx). congruence.
  - right. split; [eauto|]. exists code. auto.
Qed.

Lemma validate_length_cases (n : arg Z) :
  (validate_field Ok above_zero n = Ok (given n)
   /\ ~ present (fun z => (z < 0)%Z) n)
  \/ ((exists e, validate_field Ok above_zero n = Err e)
      /\ present (fun z => (z < 0)%Z) n).
Proof.
  destruct n as [|[z|]]; unfold above_zero; simpl;
    try (left; split; [reflexivity | intros (x & [=] & _)]).
  destruct (Z.ltb_spec z 0) as [Hlt|Hge].
  - right. split; [eauto|]. exists z. auto.
  - left. split; [reflexivity|]. intros (x & [= <-] & Hx). lia.
Qed.

Lemma validate_label_cases (name : string) (q : arg float) :
  q <> Passed None ->
  (validate_field Ok (between_0_1 name) q = Ok (stored_label q)
   /\ ~ present (fun v => in_0_1 v = false) q)
  \/ ((exists e, validate_field Ok (between_0_1 name) q = Err e)
      /\ present (fun v => in_0_1 v = false) q).
Proof.
  intros Hq. destruct q as [|[v|]]; unfold between_0_1; simpl; [| |congruence].
  - left; split; [reflexivity | intros (x & [=] & _)].
  - destruct (in_0_1 v) eqn:E; simpl.
    + left. split; [reflexivity|]. intros (x & [= <-] & Hx). congruence.
    + right. split; [eauto|]. exists v. auto.
Qed.

(** X13.  Construction when no label is passed as an explicit [None]: it
    fails, with a non-empty [ValidationError], exactly when a passed length is
    below 0, a passed label is outside [[0,1]] or a passed language code is not
    supported, and otherwise stores the arguments with each label rounded. *)
Lemma construct_spec (qs as_ : list string) (c l : arg string) (n : arg Z)
  (q h k : arg float) :
  q <> Passed None -> h <> Passed None -> k <> Passed None ->
  (~ rejected l n q h k
   /\ construct qs as_ c l n q h k
      = Entry (mkDatasetEntry qs as_ (given c) (stored_lang l) (given n)
                 (stored_label q) (stored_label h) (stored_label k)))
  \/ (rejected l n q h k
      /\ exists errors,
          errors <> [] /\ construct qs as_ c l n q h k = ValidationError errors).
Proof.
  intros Hq Hh Hk. unfold construct. rewrite validate_context.
  destruct (validate_lang_cases l) as [[El Pl] | [[el El] Pl]];
  destruct (validate_length_cases n) as [[En Pn] | [[en En] Pn]];
  destruct (validate_label_cases "quality" q Hq) as [[Eq Pq] | [[eq Eq] Pq]];
  destruct (validate_label_cases "humor" h Hh) as [[Eh Ph] | [[eh Eh] Ph]];
  destruct (validate_label_cases "creativity" k Hk) as [[Ek Pk] | [[ek Ek] Pk]];
  rewrite El, En, Eq, Eh, Ek; cbn [location app];
  first [ left; split; [unfold rejected; tauto | reflexivity]
        | right; split; [unfold rejected; tauto |];
          eexists; split; [|reflexivity]; discriminate ].
Qed.

(** C4 (the code departs from it).  The validator of the three labels rounds
    its argument whether or not it is [None], and [round(None, 1)] raises: a
    label passed as [None] fails construction. *)
Theorem label_None_fails_construction (qs as_ : list string) :
  (forall name, between_0_1 name None = Err round_of_None)
  /\ construct qs as_ Omitted Omitted Omitted (Passed None) Omitted Omitted
     = ValidationError [("quality", round_of_None)]
  /\ construct qs as_ Omitted Omitted Omitted Omitted (Passed None) Omitted
     = ValidationError [("humor", round_of_None)]
  /\ construct qs as_ Omitted Omitted Omitted Omitted Omitted (Passed None)
     = ValidationError [("creativity", round_of_None)].
Proof.
  repeat split.
Qed.

(** C5 (the code departs from it).  With a length of 3, a quality of 0.5, no
    language and [humor=None], none of the three conditions of rejection
    holds, and construction fails all the same. *)
Theorem valid_fields_fail_construction :
  construct ["Q1"] ["A1"] Omitted Omitted (Passed (Some 3%Z)) (Passed (Some 0.5%float))
    (Passed None) Omitted
  = ValidationError [("humor", round_of_None)]
  /\ ~ rejected Omitted (Passed (Some 3%Z)) (Passed (Some 0.5%float)) (Passed None) Omitted.
Proof.
  split; [reflexivity|].
  unfold rejected, present.
  intros [(x & [= <-] & Hx) | [(x & [= <-] & Hx) | [(x & [=] & _)
         | [(x & [=] & _) | (x & [=] & _)]]]].
  - lia.
  - vm_compute in Hx. discriminate.
Qed.

End Properties.

(** * Further properties of the module *)

Section Coverage.

Context {entities : Entities} {builtins : Builtins}.

(** ** Strings and markers *)

Lemma append_assoc (a b c : string) : (a ++ b) ++ c = a ++ b ++ c.
Proof.
  induction a as [|x a IH]; simpl; [reflexivity | rewrite IH; reflexivity].
Qed.

Lemma append_length (a b : string) :
  String.length (a ++ b) = String.length a + String.length b.
Proof.
  induction a as [|x a IH]; simpl; [reflexivity | rewrite IH; reflexivity].
Qed.

Lemma append_cancel_r (a b t : string) : a ++ t = b ++ t -> a = b.
Proof.
  revert b; induction a as [|x a IH]; intros [|y b] H; simpl in H.
  - reflexivity.
  - apply (f_equal String.length) in H. simpl in H. rewrite append_length in H. lia.
  - apply (f_equal String.length) in H. simpl in H. rewrite append_length in H. lia.
  - injection H as -> H. f_equal. apply IH, H.
Qed.

Lemma prefix_append (p s : string) : String.prefix p (p ++ s) = true.
Proof.
  induction p as [|x p IH]; simpl.
  - destruct s; reflexivity.
  - destruct (ascii_dec x x) as [_|Hne]; [exact IH | congruence].
Qed.

Lemma tagged_question_turn (k : token_key) (q eos_token : string) :
  tagged k (question_turn q eos_token) = match k with Question => true | _ => false end.
Proof.
  destruct k; try reflexivity. apply prefix_append.
Qed.

Lemma tagged_answer_turn (k : token_key) (a eos_token : string) :
  tagged k (answer_turn a eos_token) = match k with Answer => true | _ => false end.
Proof.
  destruct k; try reflexivity. apply prefix_append.
Qed.

Lemma tagged_system_block (k : token_key) (lines : list string) (eos_token : string) :
  tagged k (system_block lines eos_token) = match k with System => true | _ => false end.
Proof.
  destruct k; try reflexivity. apply prefix_append.
Qed.

(** ** The shape of a successful SupervisedFineTuning render *)

Lemma sft_success_shape (self : DatasetEntry) (eos_token : string) (g : Rng)
  (out : list string) :
  fst (get_formatted self sft eos_token g) = Ok (Sequence out) ->
  exists lines,
    Permutation (set_lines self) lines
    /\ List.length (answers self) <= List.length (questions self)
    /\ out = (tag_element (match lines with
                           | [] => None
                           | _ :: _ => Some (system_block lines eos_token)
                           end)
              ++ paired_turns eos_token (questions self) (answers self)
              ++ map (fun q => question_turn q eos_token)
                   (skipn (List.length (answers self)) (questions self)))%list.
Proof.
  destruct (system_tag_spec self eos_token g) as (lines & g' & Hp & E).
  unfold get_formatted, bind, lift. rewrite E. cbn [Mode_eqb].
  destruct (le_lt_dec (List.length (answers self)) (List.length (questions self)))
    as [Hle|Hlt].
  - rewrite qa_loop_covered by exact Hle. cbn [fst].
    intros [= <-]. exists lines. repeat split; assumption.
  - rewrite qa_loop_exceeding by exact Hlt. discriminate.
Qed.

Lemma turns_length (eos_token : string) (qs as_ : list string) :
  List.length as_ <= List.length qs ->
  List.length (paired_turns eos_token qs as_
               ++ map (fun q => question_turn q eos_token) (skipn (List.length as_) qs))
  = List.length qs + List.length as_.
Proof.
  revert as_; induction qs as [|q qs IH]; intros [|a as_] Hlen; simpl in Hlen; try lia.
  - reflexivity.
  - cbn [paired_turns skipn List.length app]. rewrite length_map. simpl. lia.
  - cbn [paired_turns skipn List.length app]. rewrite IH by lia. lia.
Qed.

Lemma turns_questions (eos_token : string) (qs as_ : list string) :
  List.length as_ <= List.length qs ->
  filter (tagged Question)
    (paired_turns eos_token qs as_
     ++ map (fun q => question_turn q eos_token) (skipn (List.length as_) qs))
  = map (fun q => question_turn q eos_token) qs.
Proof.
  revert as_; induction qs as [|q qs IH]; intros [|a as_] Hlen; simpl in Hlen; try lia.
  - reflexivity.
  - cbn [paired_turns skipn List.length app].
    induction (q :: qs) as [|x l IHl]; [reflexivity|].
    cbn [map filter]. rewrite tagged_question_turn, IHl. reflexivity.
  - cbn [paired_turns skipn List.length app filter map].
    rewrite tagged_question_turn, tagged_answer_turn, IH by lia. reflexivity.
Qed.

Lemma turns_answers (eos_token : string) (qs as_ : list string) :
  List.length as_ <= List.length qs ->
  filter (tagged Answer)
    (paired_turns eos_token qs as_
     ++ map (fun q => question_turn q eos_token) (skipn (List.length as_) qs))
  = map (fun a => answer_turn a eos_token) as_.
Proof.
  revert as_; induction qs as [|q qs IH]; intros [|a as_] Hlen; simpl in Hlen; try lia.
  - reflexivity.
  - cbn [paired_turns skipn List.length app].
    induction (q :: qs) as [|x l IHl]; [reflexivity|].
    cbn [map filter]. rewrite tagged_question_turn, IHl. reflexivity.
  - cbn [paired_turns skipn List.length app filter map].
    rewrite tagged_question_turn, tagged_answer_turn, IH by lia. reflexivity.
Qed.

Lemma turns_end_with_eos (eos_token : string) (qs as_ : list string) :
  Forall (ends_with eos_token)
    (paired_turns eos_token qs as_
     ++ map (fun q => question_turn q eos_token) (skipn (List.length as_) qs)).
Proof.
  apply Forall_app. split.
  - revert as_; induction qs as [|q qs IH]; intros [|a as_]; cbn [paired_turns];
      try constructor.
    + exists (QA_SPECIAL_TOKENS Question ++ q). unfold question_turn.
      rewrite append_assoc. reflexivity.
    + constructor; [|apply IH].
      exists (QA_SPECIAL_TOKENS Answer ++ a). unfold answer_turn.
      rewrite append_assoc. reflexivity.
  - apply Forall_map, Forall_forall. intros q _.
    exists (QA_SPECIAL_TOKENS Question ++ q). unfold question_turn.
    rewrite append_assoc. reflexivity.
Qed.

Lemma system_block_ends_with_eos (lines : list string) (eos_token : string) :
  ends_with eos_token (system_block lines eos_token).
Proof.
  exists (QA_SPECIAL_TOKENS System ++ join nl lines ++ nl).
  unfold system_block. rewrite !append_assoc. reflexivity.
Qed.

Lemma lines_nil_iff_unset (self : DatasetEntry) (lines : list string) :
  Permutation (set_lines self) lines -> (lines = [] <-> all_unset self).
Proof.
  intros Hp. rewrite <- set_lines_nil_iff. split; intros H.
  - subst lines. apply Permutation_sym, Permutation_nil in Hp. exact Hp.
  - rewrite H in Hp. apply Permutation_nil in Hp. exact Hp.
Qed.

Lemma map_question_turn_inj (eos_token : string) (l l' : list string) :
  map (fun q => question_turn q eos_token) l = map (fun q => question_turn q eos_token) l'
  -> l = l'.
Proof.
  revert l'; induction l as [|x l IH]; intros [|y l'] H; try discriminate H;
    [reflexivity|].
  cbn [map] in H. injection H as Hxy Hl. f_equal; [|apply IH, Hl].
  apply append_cancel_r in Hxy. exact Hxy.
Qed.

Lemma map_answer_turn_inj (eos_token : string) (l l' : list string) :
  map (fun a => answer_turn a eos_token) l = map (fun a => answer_turn a eos_token) l'
  -> l = l'.
Proof.
  revert l'; induction l as [|x l IH]; intros [|y l'] H; try discriminate H;
    [reflexivity|].
  cbn [map] in H. injection H as Hxy Hl. f_equal; [|apply IH, Hl].
  apply append_cancel_r in Hxy. exact Hxy.
Qed.

(** The Question-tagged and the Answer-tagged elements of a successful render
    are the entry's questions and answers, in order, whatever the system
    tag. *)
Lemma sft_filters (self : DatasetEntry) (eos_token : string) (g : Rng)
  (out : list string) :
  fst (get_formatted self sft eos_token g) = Ok (Sequence out) ->
  filter (tagged Question) out
  = map (fun q => question_turn q eos_token) (questions self)
  /\ filter (tagged Answer) out
     = map (fun a => answer_turn a eos_token) (answers self).
Proof.
  intros H.
  destruct (sft_success_shape self eos_token g out H) as (lines & Hp & Hle & ->).
  rewrite (filter_app (tagged Question) (tag_element _)).
  rewrite (filter_app (tagged Answer) (tag_element _)).
  rewrite turns_questions, turns_answers by exact Hle.
  destruct lines as [|line lines]; cbn [tag_element filter].
  - split; reflexivity.
  - rewrite !tagged_system_block. split; reflexivity.
Qed.

(** X1.  A SupervisedFineTuning render that succeeds has one element per
    question and one per answer, and one more, for the system tag, exactly
    when some metadata field is set. *)
Theorem sft_one_element_per_turn (self : DatasetEntry) (eos_token : string) (g : Rng)
  (out : list string) (H : fst (get_formatted self sft eos_token g) = Ok (Sequence out)) :
  (all_unset self
   /\ List.length out = List.length (questions self) + List.length (answers self))
  \/ (~ all_unset self
      /\ List.length out = S (List.length (questions self) + List.length (answers self))).
Proof.
  destruct (sft_success_shape self eos_token g out H) as (lines & Hp & Hle & ->).
  pose proof (lines_nil_iff_unset self lines Hp) as Hnil.
  rewrite length_app, turns_length by exact Hle.
  destruct lines as [|line lines].
  - left. split; [apply Hnil; reflexivity | reflexivity].
  - right. split; [|reflexivity].
    intros Hu. apply Hnil in Hu. discriminate.
Qed.

(** X2.  Every element of a successful SupervisedFineTuning render, the system
    tag included, ends with the eos marker. *)
Theorem sft_elements_end_with_eos (self : DatasetEntry) (eos_token : string) (g : Rng)
  (out : list string) (H : fst (get_formatted self sft eos_token g) = Ok (Sequence out)) :
  Forall (ends_with eos_token) out.
Proof.
  destruct (sft_success_shape self eos_token g out H) as (lines & Hp & Hle & ->).
  apply Forall_app. split; [|apply turns_end_with_eos].
  destruct lines as [|line lines]; cbn [tag_element]; constructor; [|constructor].
  apply system_block_ends_with_eos.
Qed.

(** X3.  A successful SupervisedFineTuning render keeps every question and
    every answer, in their order: its Question-tagged elements are the
    questions, each between the Question marker and the eos marker, and its
    Answer-tagged elements are the answers, each between the Answer marker and
    the eos marker. *)
Theorem sft_keeps_questions_and_answers (self : DatasetEntry) (eos_token : string)
  (g : Rng) (out : list string)
  (H : fst (get_formatted self sft eos_token g) = Ok (Sequence out)) :
  filter (tagged Question) out
  = map (fun q => QA_SPECIAL_TOKENS Question ++ q ++ eos_token) (questions self)
  /\ filter (tagged Answer) out
     = map (fun a => QA_SPECIAL_TOKENS Answer ++ a ++ eos_token) (answers self).
Proof.
  apply (sft_filters self eos_token g out H).
Qed.

(** X4.  The SupervisedFineTuning render determines the conversation: two
    entries whose renders succeed with the same sequence, whatever their
    metadata and the state of the random source, have the same questions and
    the same answers. *)
Theorem sft_render_determines_conversation (self other : DatasetEntry)
  (eos_token : string) (g g' : Rng) (out : list string)
  (H : fst (get_formatted self sft eos_token g) = Ok (Sequence out))
  (H' : fst (get_formatted other sft eos_token g') = Ok (Sequence out)) :
  questions self = questions other /\ answers self = answers other.
Proof.
  destruct (sft_filters self eos_token g out H) as [Hq Ha].
  destruct (sft_filters other eos_token g' out H') as [Hq' Ha'].
  split.
  - apply (map_question_turn_inj eos_token). congruence.
  - apply (map_answer_turn_inj eos_token). congruence.
Qed.

(** ** The legacy helpers and the entry's render *)

(** X5.  On an entry without metadata, the ReinforcementLearning render is
    [format_rl_text] of the questions: the same prompt when there is a first
    question, the same index error when there is none. *)
Theorem rl_agrees_with_format_rl_text (self : DatasetEntry) (eos_token : string)
  (g : Rng) (H : all_unset self) :
  get_formatted self rl eos_token g
  = (match format_rl_text (questions self) with
     | Ok prompt => Ok (Text prompt)
     | Err e => Err e
     end, g).
Proof.
  unfold get_formatted, bind, lift, format_rl_text.
  rewrite (system_tag_unset self eos_token g H). cbn [Mode_eqb].
  destruct (questions self); reflexivity.
Qed.

Lemma alternate_interleave (eos_token : string) (qs as_ : list string) :
  List.length qs = List.length as_ \/ List.length qs = S (List.length as_) ->
  alternate Question (interleave qs as_) eos_token
  = (paired_turns eos_token qs as_
     ++ map (fun q => question_turn q eos_token) (skipn (List.length as_) qs))%list.
Proof.
  revert as_; induction qs as [|q qs IH]; intros [|a as_] Hlen; simpl in Hlen;
    try (exfalso; lia).
  - reflexivity.
  - destruct qs as [|q' qs]; [reflexivity | simpl in Hlen; exfalso; lia].
  - cbn [interleave alternate other_tag paired_turns List.length skipn app].
    rewrite IH by lia. reflexivity.
Qed.

(** X6.  On an entry without metadata whose questions are as many as its
    answers, or one more, the SupervisedFineTuning render is the legacy path of
    [format_pairs] on the flat list of turns: question, answer, question,
    ... *)
Theorem sft_agrees_with_legacy_path (self : DatasetEntry) (eos_token : string)
  (mode : option Mode) (g : Rng) (Hu : all_unset self)
  (Hlen : List.length (questions self) = List.length (answers self)
          \/ List.length (questions self) = S (List.length (answers self))) :
  get_formatted self sft eos_token g
  = format_pairs (PairsList (interleave (questions self) (answers self)))
      eos_token false mode g.
Proof.
  unfold get_formatted, bind, lift, format_pairs.
  rewrite (system_tag_unset self eos_token g Hu). cbn [Mode_eqb].
  rewrite qa_loop_covered by lia.
  rewrite conversations_of_alternate, alternate_interleave by exact Hlen.
  reflexivity.
Qed.

Lemma conversations_of_snoc (l : list string) (x eos_token : string) :
  conversations_of (l ++ [x]) eos_token
  = (conversations_of l eos_token
     ++ [(QA_SPECIAL_TOKENS (if (List.length l mod 2 =? 0)%nat then Question else Answer)
          ++ x ++ eos_token)%string])%list.
Proof.
  unfold conversations_of.
  rewrite length_app. cbn [List.length]. rewrite Nat.add_1_r, seq_S, map_app.
  cbn [map Nat.add]. rewrite nth_middle. f_equal.
  apply map_ext_in. intros i Hi. apply in_seq in Hi.
  rewrite app_nth1 by lia. reflexivity.
Qed.

(** X7.  When the flat list ends with a question (its length is odd), the
    Answer marker that [add_initial_reply_token] appends is the opening of the
    reply: formatting the list extended by a reply gives the same elements,
    with [format_reply] of the reply in place of the bare marker. *)
Theorem reply_tag_completed_by_format_reply (l : list string) (text eos_token : string)
  (mode : option Mode) (g : Rng) (H : List.length l mod 2 = 1) :
  exists out,
    format_pairs (PairsList l) eos_token true mode g
    = (Ok (Sequence (out ++ [QA_SPECIAL_TOKENS Answer])%list), g)
    /\ format_pairs (PairsList (l ++ [text])) eos_token false mode g
       = (Ok (Sequence (out ++ [format_reply text eos_token])%list), g).
Proof.
  exists (conversations_of l eos_token). split; [reflexivity|].
  unfold format_pairs. rewrite conversations_of_snoc, H. reflexivity.
Qed.

(** ** More on the system tag *)

(** X8.  With exactly one metadata field set, the system tag does not depend
    on the random source and leaves it untouched: it is the System marker, the
    field's line, a newline and the eos marker. *)
Theorem system_tag_single_field (self : DatasetEntry) (eos_token : string) (g : Rng)
  (line : string) (H : set_lines self = [line]) :
  system_tag self eos_token g
  = (Ok (Some (QA_SPECIAL_TOKENS System ++ line ++ nl ++ eos_token)), g).
Proof.
  rewrite <- relevant_lines in H. unfold system_tag.
  destruct (relevant_system_infos self) as [|kv [|kv' rest]]; try discriminate H.
  cbn in H. injection H as <-. reflexivity.
Qed.

Lemma str_int_visible (z : Z) : truthy (remove_newlines (str_int z)) = true.
Proof.
  unfold str_int. destruct (Z.to_int z) as [d|d]; [|reflexivity].
  destruct d; reflexivity.
Qed.

(** X9.  An entry with a length has a system tag whatever the length is, 0
    included: the block carries the line ["length: "] followed by the decimal
    form of the length. *)
Theorem length_always_tagged (self : DatasetEntry) (eos_token : string) (g : Rng)
  (z : Z) (H : length self = Some z) :
  exists lines g',
    In ("length: " ++ str_int z) lines
    /\ system_tag self eos_token g = (Ok (Some (system_block lines eos_token)), g').
Proof.
  destruct (system_tag_spec self eos_token g) as (lines & g' & Hp & E).
  assert (Hin : In ("length: " ++ str_int z) lines).
  { apply (Permutation_in _ Hp). unfold set_lines. rewrite H.
    apply in_or_app; right. apply in_or_app; right. apply in_or_app; left.
    cbn [line_of]. rewrite str_int_visible. left. reflexivity. }
  exists lines, g'. split; [exact Hin|].
  rewrite E. destruct lines; [contradiction | reflexivity].
Qed.

(** X12.  A system tag that is present is [format_system_prefix] of its lines,
    each closed by a newline: the method and the free function produce the
    same layout. *)
Theorem system_tag_is_a_system_prefix (self : DatasetEntry) (eos_token : string)
  (g : Rng) (block : string) (H : fst (system_tag self eos_token g) = Ok (Some block)) :
  exists lines,
    Permutation (set_lines self) lines
    /\ block = format_system_prefix (join nl lines ++ nl) eos_token.
Proof.
  destruct (system_tag_spec self eos_token g) as (lines & g' & Hp & E).
  rewrite E in H. cbn [fst] in H. exists lines. split; [exact Hp|].
  destruct lines; [discriminate H|]. injection H as <-.
  unfold system_block, format_system_prefix. rewrite append_assoc. reflexivity.
Qed.

(** ** What a render can answer *)

(** X10.  The outcome of [get_formatted] is decided by the mode and the two
    lengths: a string only in ReinforcementLearning mode with a first question,
    an index error only in that mode without one; a sequence only in
    SupervisedFineTuning mode when no answer lacks a question; the error of an
    answer without a question only in the two other modes when answers
    outnumber questions; NotImplemented only in RewardModel mode otherwise.
    It never answers [None] and never raises a type error. *)
Theorem get_formatted_outcome (self : DatasetEntry) (mode : Mode) (eos_token : string)
  (g : Rng) :
  match fst (get_formatted self mode eos_token g) with
  | Ok (Text _) => mode = rl /\ questions self <> []
  | Ok (Sequence _) =>
      mode = sft /\ List.length (answers self) <= List.length (questions self)
  | Ok NoValue => False
  | Err (IndexError _) => mode = rl /\ questions self = []
  | Err (ValueError _) =>
      mode <> rl /\ List.length (questions self) < List.length (answers self)
  | Err (NotImplementedError _) =>
      mode = rm /\ List.length (answers self) <= List.length (questions self)
  | Err (TypeError _) => False
  end.
Proof.
  destruct (system_tag_total self eos_token g) as (t & g' & E).
  unfold get_formatted, bind, lift. rewrite E.
  destruct mode; cbn [Mode_eqb].
  - destruct (le_lt_dec (List.length (answers self)) (List.length (questions self)))
      as [Hle|Hlt].
    + rewrite qa_loop_covered by exact Hle. cbn. auto.
    + rewrite qa_loop_exceeding by exact Hlt. cbn. split; [discriminate | exact Hlt].
  - destruct (le_lt_dec (List.length (answers self)) (List.length (questions self)))
      as [Hle|Hlt].
    + rewrite qa_loop_covered by exact Hle. cbn. auto.
    + rewrite qa_loop_exceeding by exact Hlt. cbn. split; [discriminate | exact Hlt].
  - destruct (questions self) as [|q rest]; destruct t; cbn;
      split; solve [reflexivity | discriminate].
Qed.

(** X11.  No marker is a prefix of another one: an element of a render starts
    with the marker of one key only. *)
Theorem markers_prefix_free (k1 k2 : token_key) :
  String.prefix (QA_SPECIAL_TOKENS k1) (QA_SPECIAL_TOKENS k2) = true <-> k1 = k2.
Proof.
  destruct k1, k2; vm_compute; split; intros H;
    solve [reflexivity | discriminate H].
Qed.

(** ** The walk never breaks *)

Lemma zip_longest_nil_l {A B : Type} (l2 : list B) :
  zip_longest (@nil A) l2 = map (fun b => (None, Some b)) l2.
Proof.
  reflexivity.
Qed.

(** X14.  The walk of [get_formatted] visits as many positions as the longer
    of the two lists has elements, and every position has a question or an
    answer: the branch that breaks on a position with neither is never
    taken. *)
Theorem walk_has_no_empty_position (qs as_ : list string) :
  List.length (zip_longest qs as_) = Nat.max (List.length qs) (List.length as_)
  /\ Forall (fun qa => fst qa <> None \/ snd qa <> None) (zip_longest qs as_).
Proof.
  split.
  - revert as_; induction qs as [|q qs IH]; intros as_.
    + rewrite zip_longest_nil_l, length_map. reflexivity.
    + destruct as_ as [|a as_]; cbn [zip_longest List.length]; rewrite IH; simpl; lia.
  - revert as_; induction qs as [|q qs IH]; intros as_.
    + rewrite zip_longest_nil_l. apply Forall_map, Forall_forall.
      intros b _. right. discriminate.
    + destruct as_ as [|a as_]; cbn [zip_longest]; constructor;
        try apply IH; left; discriminate.
Qed.

End Coverage.

(** * Closed instances

    The theorems at concrete entries, in the environment of [Sample]. *)

Import Sample.

(** C1, the claim as stated fails.  With three questions and one answer the
    walk does not stop at the first unanswered question: the output carries
    both [Q2] and [Q3], two unanswered trailing questions, where the walk of
    the specification's text would end after [Q2]. *)
Lemma sft_walk_goes_on_after_unanswered_question :
  get_formatted (bare ["Q1"; "Q2"; "Q3"] ["A1"]) sft "</s>" []
  = (Ok (Sequence ["<|prompter|>Q1</s>"; "<|assistant|>A1</s>";
                   "<|prompter|>Q2</s>"; "<|prompter|>Q3</s>"]), [])
  /\ trailing_questions ["<|prompter|>Q1</s>"; "<|assistant|>A1</s>";
                         "<|prompter|>Q2</s>"; "<|prompter|>Q3</s>"] = 2
  /\ transcript_stopping "</s>" ["Q1"; "Q2"; "Q3"] ["A1"]
     = ["<|prompter|>Q1</s>"; "<|assistant|>A1</s>"; "<|prompter|>Q2</s>"].
Proof.
  repeat split.
Qed.

Lemma sft_appends_every_question_witness :
  List.length (answers (bare ["Q1"; "Q2"; "Q3"] ["A1"]))
  <= List.length (questions (bare ["Q1"; "Q2"; "Q3"] ["A1"]))
  /\ exists t g',
      system_tag (bare ["Q1"; "Q2"; "Q3"] ["A1"]) "</s>" [] = (Ok t, g')
      /\ get_formatted (bare ["Q1"; "Q2"; "Q3"] ["A1"]) sft "</s>" []
         = (Ok (Sequence
                  (tag_element t
                   ++ ["<|prompter|>Q1</s>"; "<|assistant|>A1</s>"]
                   ++ ["<|prompter|>Q2</s>"; "<|prompter|>Q3</s>"])%list), g').
Proof.
  split.
  - simpl. lia.
  - apply (sft_appends_every_question (bare ["Q1"; "Q2"; "Q3"] ["A1"]) "</s>" []).
    simpl. lia.
Defined.

(** C3, the claim as stated fails.  In RewardModel mode, with one question and
    two answers, the walk raises its StructuralError before the mode is looked
    at: the failure is not NotImplemented. *)
Lemma rm_raises_structural_error_first :
  get_formatted (bare ["Q1"] ["A1"; "A2"]) rm "</s>" []
  = (Err answer_without_question, [])
  /\ is_NotImplemented answer_without_question = false
  /\ is_StructuralError answer_without_question = true.
Proof.
  repeat split.
Qed.

Lemma sft_answer_without_question_witness :
  List.length (questions (bare ["Q1"] ["A1"; "A2"]))
  < List.length (answers (bare ["Q1"] ["A1"; "A2"]))
  /\ exists g',
      get_formatted (bare ["Q1"] ["A1"; "A2"]) sft "</s>" []
      = (Err answer_without_question, g')
      /\ is_StructuralError answer_without_question = true.
Proof.
  split.
  - simpl. lia.
  - apply (sft_answer_without_question (bare ["Q1"] ["A1"; "A2"]) "</s>" []).
    simpl. lia.
Defined.

Lemma rl_first_question_only_witness :
  questions (bare ["Q1"; "Q2"] []) = "Q1" :: ["Q2"]
  /\ get_formatted (bare ["Q1"; "Q2"] []) rl "</s>" []
     = (Ok (Text "<|prompter|>Q1<|assistant|>"), []).
Proof.
  split.
  - reflexivity.
  - apply (proj2 (rl_first_question_only (bare ["Q1"; "Q2"] []) "</s>" []
                    "Q1" ["Q2"] eq_refl)).
    repeat split.
Defined.

Lemma rl_empty_questions_witness :
  questions (bare [] ["A1"]) = []
  /\ exists g',
      get_formatted (bare [] ["A1"]) rl "</s>" []
      = (Err (IndexError "list index out of range"), g').
Proof.
  split.
  - reflexivity.
  - apply (rl_empty_questions (bare [] ["A1"]) "</s>" []). reflexivity.
Defined.

(** ** The specification's other examples *)

Example sft_trailing_question :
  get_formatted (bare ["Q1"; "Q2"] ["A1"]) sft "</s>" []
  = (Ok (Sequence ["<|prompter|>Q1</s>"; "<|assistant|>A1</s>"; "<|prompter|>Q2</s>"]), []).
Proof.
  reflexivity.
Qed.

Example format_reply_hello (eos_token : string) :
  format_reply "hello" eos_token = QA_SPECIAL_TOKENS Answer ++ "hello" ++ eos_token.
Proof.
  reflexivity.
Qed.

Example construct_rounds_labels :
  construct ["Q1"] ["A1"] (Passed (Some "ctx")) (Passed (Some "en")) (Passed (Some 5%Z))
    (Passed (Some 0.25%float)) (Passed (Some 0.75%float)) Omitted
  = Entry (mkDatasetEntry ["Q1"] ["A1"] (Some "ctx") (Some "en") (Some 5%Z)
             (Some (PrimFloat.div 2%float 10%float))
             (Some (PrimFloat.div 8%float 10%float)) None).
Proof.
  reflexivity.
Qed.

Example construct_collects_failures :
  construct ["Q1"] ["A1"] Omitted (Passed (Some "xx")) (Passed (Some (-5)%Z))
    (Passed (Some 1.5%float)) Omitted Omitted
  = ValidationError
      [("lang", ValueError "not a supported language: xx");
       ("length", ValueError "Length cannot be lower than 0. Received -5");
       ("quality", ValueError "Field quality must be between 0 and 1. Received 1.5.")].
Proof.
  reflexivity.
Qed.

Example system_tag_order_follows_the_tape :
  let self := mkDatasetEntry ["Q1"] ["A1"] (Some "ctx") None (Some 5%Z) None None None in
  fst (system_tag self "</s>" [0])
  = Ok (Some ("<|system|>length: 5" ++ nl ++ "context: ctx" ++ nl ++ "</s>"))
  /\ fst (system_tag self "</s>" [1])
     = Ok (Some ("<|system|>context: ctx" ++ nl ++ "length: 5" ++ nl ++ "</s>")).
Proof.
  split; reflexivity.
Qed.

(** ** Witnesses of the further properties *)

Lemma sft_one_element_per_turn_witness :
  fst (get_formatted (with_length ["Q1"; "Q2"] ["A1"] 5) sft "</s>" [])
  = Ok (Sequence with_length_render)
  /\ ((all_unset (with_length ["Q1"; "Q2"] ["A1"] 5)
       /\ List.length with_length_render = 2 + 1)
      \/ (~ all_unset (with_length ["Q1"; "Q2"] ["A1"] 5)
          /\ List.length with_length_render = S (2 + 1))).
Proof.
  split.
  - reflexivity.
  - apply (sft_one_element_per_turn (with_length ["Q1"; "Q2"] ["A1"] 5) "</s>" []).
    reflexivity.
Defined.

Lemma sft_elements_end_with_eos_witness :
  fst (get_formatted (with_length ["Q1"; "Q2"] ["A1"] 5) sft "</s>" [])
  = Ok (Sequence with_length_render)
  /\ Forall (ends_with "</s>") with_length_render.
Proof.
  split.
  - reflexivity.
  - apply (sft_elements_end_with_eos (with_length ["Q1"; "Q2"] ["A1"] 5) "</s>" []).
    reflexivity.
Defined.

Lemma sft_keeps_questions_and_answers_witness :
  fst (get_formatted (with_length ["Q1"; "Q2"] ["A1"] 5) sft "</s>" [])
  = Ok (Sequence with_length_render)
  /\ filter (tagged Question) with_length_render
     = ["<|prompter|>Q1</s>"; "<|prompter|>Q2</s>"]
  /\ filter (tagged Answer) with_length_render = ["<|assistant|>A1</s>"].
Proof.
  split.
  - reflexivity.
  - apply (sft_keeps_questions_and_answers
             (with_length ["Q1"; "Q2"] ["A1"] 5) "</s>" []).
    reflexivity.
Defined.

Lemma sft_render_determines_conversation_witness :
  fst (get_formatted (bare ["Q1"; "Q2"] ["A1"]) sft "</s>" [])
  = Ok (Sequence ["<|prompter|>Q1</s>"; "<|assistant|>A1</s>"; "<|prompter|>Q2</s>"])
  /\ fst (get_formatted (blank_context ["Q1"; "Q2"] ["A1"]) sft "</s>" [3; 1])
     = Ok (Sequence ["<|prompter|>Q1</s>"; "<|assistant|>A1</s>"; "<|prompter|>Q2</s>"])
  /\ questions (bare ["Q1"; "Q2"] ["A1"]) = questions (blank_context ["Q1"; "Q2"] ["A1"])
  /\ answers (bare ["Q1"; "Q2"] ["A1"]) = answers (blank_context ["Q1"; "Q2"] ["A1"]).
Proof.
  split; [reflexivity|]. split; [reflexivity|].
  apply (sft_render_determines_conversation
           (bare ["Q1"; "Q2"] ["A1"]) (blank_context ["Q1"; "Q2"] ["A1"])
           "</s>" [] [3; 1]
           ["<|prompter|>Q1</s>"; "<|assistant|>A1</s>"; "<|prompter|>Q2</s>"]);
    reflexivity.
Defined.

Lemma rl_agrees_with_format_rl_text_witness :
  all_unset (bare ["Q1"; "Q2"] ["A1"])
  /\ get_formatted (bare ["Q1"; "Q2"] ["A1"]) rl "</s>" [2]
     = (Ok (Text "<|prompter|>Q1<|assistant|>"), [2]).
Proof.
  split.
  - repeat split.
  - apply (rl_agrees_with_format_rl_text (bare ["Q1"; "Q2"] ["A1"]) "</s>" [2]).
    repeat split.
Defined.

Lemma sft_agrees_with_legacy_path_witness :
  all_unset (bare ["Q1"; "Q2"] ["A1"])
  /\ get_formatted (bare ["Q1"; "Q2"] ["A1"]) sft "</s>" []
     = format_pairs (PairsList ["Q1"; "A1"; "Q2"]) "</s>" false None [].
Proof.
  split.
  - repeat split.
  - apply (sft_agrees_with_legacy_path (bare ["Q1"; "Q2"] ["A1"]) "</s>" None []).
    + repeat split.
    + right. reflexivity.
Defined.

Lemma reply_tag_completed_by_format_reply_witness :
  List.length ["Q1"; "A1"; "Q2"] mod 2 = 1
  /\ exists out,
      format_pairs (PairsList ["Q1"; "A1"; "Q2"]) "</s>" true None []
      = (Ok (Sequence (out ++ ["<|assistant|>"])%list), [])
      /\ format_pairs (PairsList ["Q1"; "A1"; "Q2"; "A2"]) "</s>" false None []
         = (Ok (Sequence (out ++ ["<|assistant|>A2</s>"])%list), []).
Proof.
  split.
  - reflexivity.
  - apply (reply_tag_completed_by_format_reply ["Q1"; "A1"; "Q2"] "A2" "</s>" None []).
    reflexivity.
Defined.

Lemma system_tag_single_field_witness :
  set_lines (with_length ["Q1"] ["A1"] 0) = ["length: 0"]
  /\ system_tag (with_length ["Q1"] ["A1"] 0) "</s>" [4; 2]
     = (Ok (Some ("<|system|>" ++ "length: 0" ++ nl ++ "</s>")), [4; 2]).
Proof.
  split.
  - reflexivity.
  - apply (system_tag_single_field (with_length ["Q1"] ["A1"] 0) "</s>" [4; 2]).
    reflexivity.
Defined.

Lemma length_always_tagged_witness :
  length (with_length ["Q1"] ["A1"] 0) = Some 0%Z
  /\ exists lines g',
      In "length: 0" lines
      /\ system_tag (with_length ["Q1"] ["A1"] 0) "</s>" []
         = (Ok (Some (system_block lines "</s>")), g').
Proof.
  split.
  - reflexivity.
  - apply (length_always_tagged (with_length ["Q1"] ["A1"] 0) "</s>" [] 0%Z).
    reflexivity.
Defined.

Lemma system_tag_is_a_system_prefix_witness :
  fst (system_tag (with_length ["Q1"] ["A1"] 5) "</s>" [])
  = Ok (Some ("<|system|>length: 5" ++ nl ++ "</s>"))
  /\ exists lines,
      Permutation (set_lines (with_length ["Q1"] ["A1"] 5)) lines
      /\ "<|system|>length: 5" ++ nl ++ "</s>"
         = format_system_prefix (join nl lines ++ nl) "</s>".
Proof.
  split.
  - reflexivity.
  - apply (system_tag_is_a_system_prefix (with_length ["Q1"] ["A1"] 5) "</s>" []).
    reflexivity.
Defined.

Lemma construct_spec_witness :
  (~ rejected (Passed (Some "en")) (Passed (Some 5%Z)) (Passed (Some 0.25%float))
       Omitted Omitted
   /\ construct ["Q1"] ["A1"] (Passed (Some "ctx")) (Passed (Some "en"))
        (Passed (Some 5%Z)) (Passed (Some 0.25%float)) Omitted Omitted
      = Entry (mkDatasetEntry ["Q1"] ["A1"] (Some "ctx") (Some "en") (Some 5%Z)
                 (Some (round1 0.25%float)) None None))
  \/ (rejected (Passed (Some "en")) (Passed (Some 5%Z)) (Passed (Some 0.25%float))
        Omitted Omitted
      /\ exists errors,
          errors <> []
          /\ construct ["Q1"] ["A1"] (Passed (Some "ctx")) (Passed (Some "en"))
               (Passed (Some 5%Z)) (Passed (Some 0.25%float)) Omitted Omitted
             = ValidationError errors).
Proof.
  exact (construct_spec ["Q1"] ["A1"] (Passed (Some "ctx")) (Passed (Some "en"))
           (Passed (Some 5%Z)) (Passed (Some 0.25%float)) Omitted Omitted
           ltac:(discriminate) ltac:(discriminate) ltac:(discriminate)).
Defined.
